(** * DNABERT-2 embedding script and its test client

    A shallow embedding of [genepredictor/run_dnabert.py] and of
    [genepredictor/test_api.py].

    [run_dnabert.py] takes [outputs[0]] of a float32 model as the hidden
    states and reduces batch element 0 along the token axis with
    [torch.mean(..., dim=0)] and [torch.max(..., dim=0)[0]]; its [except]
    clause prints the text of the exception followed by installation hints.
    As the file stands, lines 46-47, 60-61 and 63-64 start at column 0 inside
    the [try] that line 31 opens: the module does not parse, and no run of
    it exists.  What is embedded is therefore what the expressions of
    lines 57, 60 and 63 compute and what the clause of lines 75-83 does with
    an exception, each on its own; no definition stands for a run of the
    script.

    Two renderings of the hidden states are used.  The float32 one
    ([FTensor3], entries in IEEE 754 binary32) carries the arithmetic of the
    mean, every operation rounded.  The exact one ([Tensor3], entries in [Q])
    stands for the values of a tensor without NaN or infinity; it carries
    what rounding cannot touch: the maximum, which does no arithmetic, the
    shapes, the choice of the batch element, and the cases of zero rows and
    of a single row. *)

From Stdlib Require Import QArith Qminmax String Ascii DecimalString Lia.
From Stdlib Require Import SpecFloat.
From stdpp Require Import base list.

Local Open Scope Q_scope.

(** ** Outcomes of Python expressions *)

(** A Python expression either evaluates to a value or raises an exception;
    the handler of the script only ever looks at [str(e)]. *)
Inductive outcome (A : Type) : Type :=
| Ok (a : A)
| Raise (msg : string).
Arguments Ok {A} a.
Arguments Raise {A} msg.

(** ** Tensors *)

(** An entry of a pooled tensor: a finite value or the float NaN. *)
Inductive scalar : Type :=
| Fin (q : Q)
| NaN.

(** A 2-d tensor of shape [(length t2_data, t2_cols)], stored by rows.  The
    column count is carried explicitly because a tensor with zero rows still
    has a second dimension. *)
Record Tensor2 : Type := mkTensor2 {
  t2_cols : nat;
  t2_data : list (list Q)
}.

Definition t2_rows (m : Tensor2) : nat := length (t2_data m).

Definition wf2 (m : Tensor2) : Prop :=
  Forall (fun r => length r = t2_cols m) (t2_data m).

(** A 3-d tensor of shape [(length t3_data, T, t3_cols)]: one 2-d slice per
    batch element. *)
Record Tensor3 : Type := mkTensor3 {
  t3_cols : nat;
  t3_data : list (list (list Q))
}.

Definition index_oob_msg : string :=
  "index 0 is out of bounds for dimension 0 with size 0".

(** [t[0]] on a 3-d tensor: the first slice, or [IndexError] when the leading
    dimension is empty. *)
Definition tensor_index0 (h : Tensor3) : outcome Tensor2 :=
  match t3_data h with
  | [] => Raise index_oob_msg
  | s :: _ => Ok (mkTensor2 (t3_cols h) s)
  end.

(** *** [torch.mean(m, dim=0)], exact rendering *)

(** The reduction with its additions and its division taken exactly.  It
    agrees with the float32 computation of the code only where that
    computation does not round; it is used for the shape of the result, for
    zero rows (the sum is [0] and [0/0] is NaN in either arithmetic), for a
    single row ([(0 + x) / 1] is [x] in either arithmetic) and for the choice
    of the batch element.  The values the code computes in general are those
    of [torch_mean_dim0_f32] below. *)

(** Element-wise sum of two rows. *)
Definition vadd (a b : list Q) : list Q := zip_with Qplus a b.

(** Sum along dimension 0: the rows are accumulated one after the other into
    a zero vector of the column count. *)
Definition sum_dim0 (m : Tensor2) : list Q :=
  foldl vadd (replicate (t2_cols m) 0) (t2_data m).

(** Division of an accumulated sum by the row count; with zero rows the sum
    is [0] and the quotient [0/0] is NaN. *)
Definition div_count (n : nat) (s : Q) : scalar :=
  match n with
  | O => NaN
  | S _ => Fin (s / inject_Z (Z.of_nat n))
  end.

Definition torch_mean_dim0 (m : Tensor2) : list scalar :=
  map (div_count (t2_rows m)) (sum_dim0 m).

(** *** [torch.max(m, dim=0)] *)

Definition max_empty_msg : string :=
  "max(): Expected reduction dim 0 to have non-zero size.".

(** One step of the running maximum of a column: the entry [x] of row [t]
    replaces the current pair when it is strictly larger. *)
Definition max_upd (t : nat) (cur : Q * nat) (x : Q) : Q * nat :=
  if Qle_bool x (fst cur) then cur else (x, t).

Fixpoint max_scan (t : nat) (acc : list (Q * nat)) (rows : list (list Q))
  : list (Q * nat) :=
  match rows with
  | [] => acc
  | r :: rs => max_scan (S t) (zip_with (max_upd t) acc r) rs
  end.

(** The reduction returns the pair [(values, indices)]; it raises on an empty
    reduction dimension, for which a maximum has no identity. *)
Definition torch_max_dim0 (m : Tensor2) : outcome (list Q * list nat) :=
  match t2_data m with
  | [] => Raise max_empty_msg
  | r0 :: rs =>
      let acc := max_scan 1 (map (fun x => (x, O)) r0) rs in
      Ok (map fst acc, map snd acc)
  end.

(** ** Pooling as the script writes it (lines 60 and 63) *)

(** [embedding_mean = torch.mean(hidden_states[0], dim=0)] *)
Definition embedding_mean (hidden_states : Tensor3) : outcome (list scalar) :=
  match tensor_index0 hidden_states with
  | Ok m => Ok (torch_mean_dim0 m)
  | Raise e => Raise e
  end.

(** [embedding_max = torch.max(hidden_states[0], dim=0)[0]]: of the pair
    returned by the reduction only component 0, the values, is kept. *)
Definition embedding_max (hidden_states : Tensor3) : outcome (list Q) :=
  match tensor_index0 hidden_states with
  | Ok m =>
      match torch_max_dim0 m with
      | Ok vi => Ok (fst vi)
      | Raise e => Raise e
      end
  | Raise e => Raise e
  end.

(** ** Reference definitions: per-dimension reductions of a column *)

(** Column [k] of a matrix: the [k]-th component of every row, in row order. *)
Definition column (k : nat) (m : Tensor2) : list Q :=
  map (fun r => nth k r 0) (t2_data m).

(** Arithmetic mean of a non-empty list of rationals. *)
Definition arith_mean (l : list Q) : Q :=
  foldl Qplus 0 l / inject_Z (Z.of_nat (length l)).

(** [v] is the maximum of [l]: it occurs in [l] and bounds every element. *)
Definition is_maximum (v : Q) (l : list Q) : Prop :=
  v ∈ l /\ forall x, x ∈ l -> x <= v.

(** ** The mean reduction in float32 *)

(** The model is loaded with [torch_dtype=torch.float32] (line 41): the
    entries of the hidden states are IEEE 754 binary32 numbers (24 bits of
    precision, exponents up to 128), and [torch.mean] adds and divides in
    that format, each operation rounded to nearest, ties to even. *)
Definition f32 : Type := spec_float.

Definition f32_add (x y : f32) : f32 := SFadd 24 128 x y.

Definition f32_div (x y : f32) : f32 := SFdiv 24 128 x y.

Definition f32_zero : f32 := S754_zero false.

(** The float32 nearest to an integer. *)
Definition f32_of_Z (z : Z) : f32 := binary_normalize 24 128 z 0 false.

(** The value of a float32 that is neither NaN nor an infinity, as a
    rational number in lowest terms. *)
Definition f32_value (x : f32) : option Q :=
  match x with
  | S754_zero _ => Some 0
  | S754_finite s m e => Some (Qred (inject_Z (cond_Zopp s (Z.pos m)) * 2 ^ e))
  | S754_infinity _ => None
  | S754_nan => None
  end.

(** A float32 tensor of shape [(length f2_data, f2_cols)], stored by rows,
    and one of shape [(length f3_data, T, f3_cols)]. *)
Record FTensor2 : Type := mkFTensor2 {
  f2_cols : nat;
  f2_data : list (list f32)
}.

Record FTensor3 : Type := mkFTensor3 {
  f3_cols : nat;
  f3_data : list (list (list f32))
}.

Definition f32_wf2 (m : FTensor2) : Prop :=
  Forall (fun r => length r = f2_cols m) (f2_data m).

(** [t[0]] on a 3-d float32 tensor. *)
Definition f32_tensor_index0 (h : FTensor3) : outcome FTensor2 :=
  match f3_data h with
  | [] => Raise index_oob_msg
  | s :: _ => Ok (mkFTensor2 (f3_cols h) s)
  end.

Definition f32_vadd (a b : list f32) : list f32 := zip_with f32_add a b.

(** Sum along dimension 0: the rows are added one after the other, in their
    order, to a zero vector of the column count. *)
Definition f32_sum_dim0 (m : FTensor2) : list f32 :=
  foldl f32_vadd (replicate (f2_cols m) f32_zero) (f2_data m).

(** [torch.mean(m, dim=0)]: the sums divided by the row count; with zero
    rows the quotient is [0/0], NaN. *)
Definition torch_mean_dim0_f32 (m : FTensor2) : list f32 :=
  map (fun s => f32_div s (f32_of_Z (Z.of_nat (length (f2_data m)))))
      (f32_sum_dim0 m).

(** [embedding_mean = torch.mean(hidden_states[0], dim=0)] on the float32
    hidden states. *)
Definition embedding_mean_f32 (hidden_states : FTensor3) : outcome (list f32) :=
  match f32_tensor_index0 hidden_states with
  | Ok m => Ok (torch_mean_dim0_f32 m)
  | Raise e => Raise e
  end.

(** Reference definitions: column [k] of a float32 matrix, and the float32
    mean of a list, its sum from left to right divided by its length. *)
Definition f32_col (k : nat) (rows : list (list f32)) : list f32 :=
  map (fun r => nth k r f32_zero) rows.

Definition f32_mean (l : list f32) : f32 :=
  f32_div (foldl f32_add f32_zero l) (f32_of_Z (Z.of_nat (length l))).

(** The exact rendering of a float32 tensor all of whose entries are
    finite: every entry replaced by its value. *)
Definition exact_rows (rows : list (list f32)) : option (list (list Q)) :=
  mapM (mapM f32_value) rows.

Definition exact_view (h : FTensor3) : option Tensor3 :=
  match mapM exact_rows (f3_data h) with
  | Some slices => Some (mkTensor3 (f3_cols h) slices)
  | None => None
  end.

(** ** Text helpers *)

Local Open Scope string_scope.

Definition nl : string := String (ascii_of_nat 10) EmptyString.

(** Decimal rendering of a natural number, as an f-string does. *)
Definition str_of_nat (n : nat) : string :=
  DecimalString.NilZero.string_of_uint (Nat.to_uint n).

(** ** Indexing the model output, and the [except] clause *)

(** [outputs[0]] on the tuple returned by the model (line 57). *)
Definition tuple_index0 {A : Type} (t : list A) : outcome A :=
  match t with
  | [] => Raise "tuple index out of range"
  | x :: _ => Ok x
  end.

(** What [print] writes: a line of text, or the rendering of an array
    (lines 68 and 71) whose digits are not modelled. *)
Inductive out_item : Type :=
| Line (s : string)
| Values (xs : list scalar).

(** An exception as an [except] clause sees it: whether its class derives
    from [Exception], and the text [str(e)]. *)
Record py_exception : Type := mkException {
  derives_from_Exception : bool;
  exn_str : string
}.

Section Script.

(** The backend is opaque: a private state (caches, weights) and an
    encoding type for what the tokenizer hands to the model. *)
Variables BState Encoding : Type.

Inductive call : Type :=
| TokenizerCall (s : string)
| ModelCall (inputs : Encoding).

Record world : Type := mkWorld {
  stdout : list out_item;
  calls : list call;
  backend : BState
}.

(** The tokenizer applied to a string and the model applied to its
    output. *)
Variable run_tokenizer : string -> BState -> outcome Encoding * BState.
Variable run_model : Encoding -> BState -> outcome (list Tensor3) * BState.

(** State and exception monad of the interpreter: an exception keeps the
    effects performed before it. *)
Definition M (A : Type) : Type := world -> outcome A * world.

Definition call_tokenizer (s : string) : M Encoding :=
  fun w =>
    let (r, b) := run_tokenizer s (backend w) in
    (r, mkWorld (stdout w) (calls w ++ [TokenizerCall s]) b).

Definition call_model (inputs : Encoding) : M (list Tensor3) :=
  fun w =>
    let (r, b) := run_model inputs (backend w) in
    (r, mkWorld (stdout w) (calls w ++ [ModelCall inputs]) b).

(** Lines 77-83: the seven fixed lines of the handler. *)
Definition hints : list out_item :=
  [ Line (nl ++ "Alternative method:");
    Line "You need to install git-lfs to properly download the model weights:";
    Line "1. Install git-lfs: 'sudo dnf install git-lfs' on Fedora";
    Line "2. Run: 'git lfs install'";
    Line "3. Clone the repo: 'git clone https://huggingface.co/zhihan1996/DNABERT-2-117M'";
    Line "4. Pull LFS files: 'cd DNABERT-2-117M && git lfs pull'";
    Line "5. Copy to your project directory" ].

(** Lines 76-83: the suite of the handler, run on [str(e)]. *)
Definition handler (e : string) : M unit :=
  fun w =>
    (Ok tt,
     mkWorld (stdout w ++ Line ("Error: " ++ e) :: hints) (calls w) (backend w)).

(** Line 75, [except Exception as e]: the clause takes an exception whose
    class derives from [Exception] and runs the suite on it; an exception of
    another class ([KeyboardInterrupt], [SystemExit], [GeneratorExit]) is
    not handled by it and goes on. *)
Definition except_Exception (e : py_exception) : option (M unit) :=
  if derives_from_Exception e then Some (handler (exn_str e)) else None.

End Script.

(** ** The service wrapper *)

(** Modelled from the spec: the error taxonomy of section 7, which the
    sources do not declare.  [InvalidCharacter] carries the offending
    character and its index in the normalized sequence. *)
Inductive ErrorKind : Type :=
| Empty
| TooShort
| TooLong
| InvalidCharacter (c : ascii) (i : nat)
| TokenizationFailure
| InferenceFailure
| EmptyMatrix
| ModelUnavailable
| Timeout.

(** Modelled from the spec: the policy value of section 4.1. *)
Definition MIN_LEN : nat := 6.

(** Modelled from the spec: the character classes the validator needs
    (whitespace to trim, lower-case letters to fold, the DNA alphabet). *)
Definition is_space (c : ascii) : bool :=
  let n := nat_of_ascii c in
  (n =? 32)%nat || ((9 <=? n)%nat && (n <=? 13)%nat).

Definition to_upper (c : ascii) : ascii :=
  let n := nat_of_ascii c in
  if (97 <=? n)%nat && (n <=? 122)%nat then ascii_of_nat (n - 32) else c.

Definition is_nucleotide (c : ascii) : bool :=
  match c with
  | "A"%char | "C"%char | "G"%char | "T"%char => true
  | _ => false
  end.

Fixpoint drop_spaces (l : list ascii) : list ascii :=
  match l with
  | [] => []
  | c :: l' => if is_space c then drop_spaces l' else l
  end.

(** Modelled from the spec: whitespace removed at both ends. *)
Definition trim (l : list ascii) : list ascii :=
  reverse (drop_spaces (reverse (drop_spaces l))).

(** Modelled from the spec: the ingestion step of SequenceValidator (trim
    whitespace, normalize case to uppercase); no validator is part of the
    sources. *)
Definition normalize (raw : string) : list ascii :=
  map to_upper (trim (list_ascii_of_string raw)).

(** Modelled from the spec: the first character outside the alphabet, with
    its index, scanning from index [i]. *)
Fixpoint first_invalid (i : nat) (l : list ascii) : option (ascii * nat) :=
  match l with
  | [] => None
  | c :: l' => if is_nucleotide c then first_invalid (S i) l' else Some (c, i)
  end.

(** Modelled from the spec: the success value of section 3 (normalized
    sequence, both embeddings, token count). *)
Record PredictionResult : Type := mkResult {
  pr_sequence : string;
  pr_mean : list scalar;
  pr_max : list Q;
  pr_token_count : nat
}.

(** Modelled from the spec: the token count of the result, the number of
    rows of batch element 0. *)
Definition token_count (hidden_states : Tensor3) : nat :=
  match tensor_index0 hidden_states with
  | Ok m => t2_rows m
  | Raise _ => O
  end.

Section Service.

Variables BState Encoding : Type.

(** The service ceiling on the sequence length; its value is configuration. *)
Variable MAX_LEN : nat.

Variable run_tokenizer : string -> BState -> outcome Encoding * BState.
Variable run_model : Encoding -> BState -> outcome (list Tensor3) * BState.

(** Modelled from the spec: SequenceValidator.validate, which is not part of
    the sources.  An input that is empty after trimming is [Empty] and a
    shorter one than [MIN_LEN] is [TooShort], whatever its characters
    (sections 4.1 and 8: every sequence of length below 6 is [TooShort]).
    Among the other inputs, one with a character outside the alphabet is
    [InvalidCharacter] (section 8: every sequence with such a character is
    [InvalidCharacter]); [TooLong] is what remains for an input over the
    alphabet that exceeds [MAX_LEN]. *)
Definition validate (raw : string) : ErrorKind + string :=
  let s := normalize raw in
  let n := length s in
  if (n =? 0)%nat then inl Empty
  else if (n <? MIN_LEN)%nat then inl TooShort
  else
    match first_invalid 0 s with
    | Some (c, i) => inl (InvalidCharacter c i)
    | None =>
        if (MAX_LEN <? n)%nat then inl TooLong
        else inr (string_of_list_ascii s)
    end.

(** Modelled from the spec: PredictionService.predict, which is not part of
    the sources.  Validation comes first and short-circuits; the later stages
    are the script's own steps (tokenizer call, model call, [outputs[0]],
    the two poolings), each failure being translated to the error kind of its
    stage.  The tokenizer and the model are the ones loaded at startup. *)
Definition predict (raw : string)
  : world BState Encoding -> (ErrorKind + PredictionResult) * world BState Encoding :=
  fun w =>
    match validate raw with
    | inl e => (inl e, w)
    | inr seq =>
        match call_tokenizer BState Encoding run_tokenizer seq w with
        | (Raise _, w1) => (inl TokenizationFailure, w1)
        | (Ok inputs, w1) =>
            match call_model BState Encoding run_model inputs w1 with
            | (Raise _, w2) => (inl InferenceFailure, w2)
            | (Ok outputs, w2) =>
                match tuple_index0 outputs with
                | Raise _ => (inl InferenceFailure, w2)
                | Ok hidden_states =>
                    match embedding_mean hidden_states,
                          embedding_max hidden_states with
                    | Ok e_mean, Ok e_max =>
                        (inr (mkResult seq e_mean e_max
                                (token_count hidden_states)), w2)
                    | _, _ => (inl EmptyMatrix, w2)
                    end
                end
            end
        end
    end.

End Service.

Arguments TokenizerCall {Encoding} s.
Arguments ModelCall {Encoding} inputs.
Arguments mkWorld {BState Encoding} stdout calls backend.
Arguments stdout {BState Encoding} w.
Arguments calls {BState Encoding} w.
Arguments backend {BState Encoding} w.
Arguments handler {BState Encoding} e w.
Arguments except_Exception {BState Encoding} e.
Arguments predict {BState Encoding} MAX_LEN run_tokenizer run_model raw w.

(** ** Auxiliary definitions for the proofs *)

(** The running maximum of one column, as [max_scan] computes it at each
    position. *)
Fixpoint col_scan (t : nat) (cur : Q * nat) (xs : list Q) : Q * nat :=
  match xs with
  | [] => cur
  | x :: xs' => col_scan (S t) (max_upd t cur x) xs'
  end.

(** Component [k] of each row of a list of rows. *)
Definition col (k : nat) (rows : list (list Q)) : list Q :=
  map (fun r => nth k r 0%Q) rows.

(** Lines of the handler's report. *)
Definition is_error_line (it : out_item) : bool :=
  match it with
  | Line s => String.prefix "Error: " s
  | Values _ => false
  end.

Definition error_reports (out : list out_item) : list out_item :=
  List.filter is_error_line out.

(** ** Sample tensors and backends for the examples *)

(** Two batch elements of three tokens and two dimensions. *)
Definition demo_hidden : Tensor3 :=
  mkTensor3 2 [ [ [1; 4]; [3; 2]; [5; -3] ];
                [ [7; 7]; [7; 7]; [7; 7] ] ]%Q.

(** Batch element 0 of [demo_hidden]. *)
Definition demo_matrix : Tensor2 :=
  mkTensor2 2 [ [1; 4]; [3; 2]; [5; -3] ]%Q.

(** One batch element without any token. *)
Definition zero_rows : Tensor3 := mkTensor3 2 [ [] ].

Definition demo_tokenizer (s : string) (b : nat) : outcome (list nat) * nat :=
  (Ok [String.length s], S b).

Definition demo_model (inputs : list nat) (b : nat)
  : outcome (list Tensor3) * nat :=
  (Ok [demo_hidden], S b).

Definition demo_world : world nat (list nat) := mkWorld [] [] O.

(** Float32 hidden states: one batch element with the rows [2^24] and [1],
    and the float32 rendering of [demo_hidden]. *)
Definition f32_big_and_one : FTensor3 :=
  mkFTensor3 1 [ [ [f32_of_Z 16777216]; [f32_of_Z 1] ] ].

Definition f32_demo_hidden : FTensor3 :=
  mkFTensor3 2
    [ [ [f32_of_Z 1; f32_of_Z 4];
        [f32_of_Z 3; f32_of_Z 2];
        [f32_of_Z 5; f32_of_Z (-3)] ];
      [ [f32_of_Z 7; f32_of_Z 7];
        [f32_of_Z 7; f32_of_Z 7];
        [f32_of_Z 7; f32_of_Z 7] ] ].

Definition f32_demo_matrix : FTensor2 :=
  mkFTensor2 2
    [ [f32_of_Z 1; f32_of_Z 4];
      [f32_of_Z 3; f32_of_Z 2];
      [f32_of_Z 5; f32_of_Z (-3)] ].

(** ** The test client ([genepredictor/test_api.py]) *)

Module TestApi.

Definition API_URL : string := "http://localhost:4000/predict".

Definition TEST_SEQUENCES : list string :=
  [ "ACGTAGCATCGGATCTATCT";
    "TTTTAAAACCCGGGGGNNNN";
    "ACGT" ].

(** The exception classes the client tells apart: the two it names in its
    [except] clauses, and every other class. *)
Inductive exn : Type :=
| RequestException (msg : string)
| JSONDecodeError (msg : string)
| OtherException (msg : string).

Inductive result (A : Type) : Type :=
| Done (a : A)
| Raised (e : exn).
Arguments Done {A} a.
Arguments Raised {A} e.

(** Outcomes that do not leave [test_prediction] as an exception: a value,
    or a [RequestException]. *)
Definition caught_by_client {A} (res : result A) : bool :=
  match res with
  | Done _ => true
  | Raised (RequestException _) => true
  | Raised _ => false
  end.

(** [s * n] on strings. *)
Fixpoint str_repeat (s : string) (n : nat) : string :=
  match n with
  | O => EmptyString
  | S n' => s ++ str_repeat s n'
  end.

(** The arguments of [requests.post]: the URL, the headers and the JSON
    object sent as body. *)
Record Request : Type := mkRequest {
  url : string;
  headers : list (string * string);
  json : list (string * string)
}.

Definition request_for (sequence : string) : Request :=
  mkRequest API_URL
            [("Content-Type", "application/json")]
            [("sequence", sequence)].

Section Client.

(** Parsed JSON values and the state of the server are opaque. *)
Variables JSON Server : Type.

(** What the client reads of a response: [status_code], [text], and the
    outcome of [json()], the parsed body or the message of the decoding
    error. *)
Record Response : Type := mkResponse {
  status_code : nat;
  text : string;
  json_body : JSON + string
}.

Record world : Type := mkWorld {
  stdout : list string;
  requests : list Request;
  server : Server
}.

(** [json.dumps(data, indent=2)] and [requests.post]. *)
Variable dumps : JSON -> string.
Variable post : Request -> Server -> result Response * Server.

Definition C (A : Type) : Type := world -> result A * world.

Definition ret {A} (a : A) : C A := fun w => (Done a, w).

Definition bind {A B} (m : C A) (f : A -> C B) : C B :=
  fun w =>
    match m w with
    | (Done a, w') => f a w'
    | (Raised e, w') => (Raised e, w')
    end.

(** [try: m except <classes>: h]: the handler is chosen by the class of the
    exception; an exception of another class goes on. *)
Definition try_except {A} (m : C A) (h : exn -> option (C A)) : C A :=
  fun w =>
    match m w with
    | (Done a, w') => (Done a, w')
    | (Raised e, w') =>
        match h e with
        | Some k => k w'
        | None => (Raised e, w')
        end
    end.

Definition print (s : string) : C unit :=
  fun w => (Done tt, mkWorld (stdout w ++ [s]) (requests w) (server w)).

Definition do_post (r : Request) : C Response :=
  fun w =>
    let (res, sv) := post r (server w) in
    (res, mkWorld (stdout w) (requests w ++ [r]) sv).

Definition response_json (response : Response) : C JSON :=
  fun w =>
    match json_body response with
    | inl data => (Done data, w)
    | inr msg => (Raised (JSONDecodeError msg), w)
    end.

Notation "x <- m ;; k" := (bind m (fun x => k))
  (at level 100, m at next level, right associativity).
Notation "m ;;; k" := (bind m (fun _ => k))
  (at level 100, right associativity).

(** Lines 35-42: the inner [try]. *)
Definition show_body (response : Response) : C unit :=
  try_except
    (data <- response_json response ;;
     print "Response:" ;;;
     print (dumps data))
    (fun e =>
       match e with
       | JSONDecodeError _ =>
           Some (print "Response (not JSON):" ;;;
                 print (text response))
       | _ => None
       end).

(** Lines 21-47. *)
Definition test_prediction (sequence : string) : C unit :=
  print (nl ++ "Testing with sequence: " ++ sequence) ;;;
  print (str_repeat "-" 50) ;;;
  try_except
    (response <- do_post (request_for sequence) ;;
     print ("Status code: " ++ str_of_nat (status_code response)) ;;;
     show_body response)
    (fun e =>
       match e with
       | RequestException msg => Some (print ("Error: " ++ msg))
       | _ => None
       end) ;;;
  print "".

(** The [for] loop of lines 54-55. *)
Fixpoint for_each (sequences : list string) : C unit :=
  match sequences with
  | [] => ret tt
  | sequence :: rest => test_prediction sequence ;;; for_each rest
  end.

(** Lines 49-55. *)
Definition main : C unit :=
  print ("Testing DNA Prediction API at: " ++ API_URL) ;;;
  print (str_repeat "=" 50) ;;;
  for_each TEST_SEQUENCES.

End Client.

Arguments mkResponse {JSON} status_code text json_body.
Arguments status_code {JSON} r.
Arguments text {JSON} r.
Arguments json_body {JSON} r.
Arguments mkWorld {Server} stdout requests server.
Arguments stdout {Server} w.
Arguments requests {Server} w.
Arguments server {Server} w.
Arguments print {Server} s w.
Arguments test_prediction {JSON Server} dumps post sequence w.
Arguments for_each {JSON Server} dumps post sequences w.
Arguments main {JSON Server} dumps post w.

(** A sample server: it answers the valid sequence with a JSON body, the
    sequence with unknown bases with a plain-text body, and drops the
    connection on anything else.  Its state counts the requests. *)
Definition demo_post (r : Request) (n : nat) : result (Response string) * nat :=
  match json r with
  | [(_, "ACGTAGCATCGGATCTATCT")] =>
      (Done (mkResponse 200 "{}" (inl "{}")), S n)
  | [(_, "TTTTAAAACCCGGGGGNNNN")] =>
      (Done (mkResponse 400 "Bad Request" (inr "Expecting value")), S n)
  | _ => (Raised (RequestException "Connection refused"), S n)
  end.

(** A [post] that fails with an exception that is no [RequestException]. *)
Definition crashing_post (r : Request) (n : nat) : result (Response string) * nat :=
  (Raised (OtherException "interrupted"), S n).

(** A server that cannot be reached. *)
Definition refusing_post (r : Request) (n : nat) : result (Response string) * nat :=
  (Raised (RequestException "Connection refused"), S n).

Definition demo_dumps (data : string) : string := data.

Definition demo_world : world nat := mkWorld [] [] O.

End TestApi.

(** * Properties *)

(** ** Mean pooling *)

Lemma length_vadd (a b : list Q) :
  length a = length b -> length (vadd a b) = length a.
Proof.
  intros H. unfold vadd. rewrite length_zip_with. lia.
Qed.

Lemma nth_vadd (a b : list Q) (k : nat) :
  length a = length b -> (k < length a)%nat ->
  nth k (vadd a b) 0 = (nth k a 0 + nth k b 0)%Q.
Proof.
  revert b k. induction a as [|x a IH]; intros [|y b] k Hl Hk; simpl in *; try lia.
  destruct k as [|k]; [reflexivity|]. apply IH; lia.
Qed.

Lemma foldl_vadd_length (D : nat) (rows : list (list Q)) (acc : list Q) :
  length acc = D -> Forall (fun r => length r = D) rows ->
  length (foldl vadd acc rows) = D.
Proof.
  revert acc. induction rows as [|r rows IH]; intros acc Ha Hr; simpl; [exact Ha|].
  inversion Hr; subst. apply IH; [|assumption].
  rewrite length_vadd; congruence.
Qed.

Lemma foldl_vadd_nth (D : nat) (rows : list (list Q)) (acc : list Q) (k : nat) :
  length acc = D -> Forall (fun r => length r = D) rows -> (k < D)%nat ->
  nth k (foldl vadd acc rows) 0 = foldl Qplus (nth k acc 0) (col k rows).
Proof.
  revert acc. induction rows as [|r rows IH]; intros acc Ha Hr Hk; simpl; [reflexivity|].
  inversion Hr; subst.
  rewrite IH; [|rewrite length_vadd; congruence|assumption|assumption].
  rewrite nth_vadd; [reflexivity|congruence|lia].
Qed.

Lemma nth_replicate_zero (D k : nat) : nth k (replicate D 0%Q) 0%Q = 0%Q.
Proof.
  revert k. induction D as [|D IH]; intros [|k]; simpl; auto.
Qed.

Lemma length_torch_mean_dim0 (m : Tensor2) :
  wf2 m -> length (torch_mean_dim0 m) = t2_cols m.
Proof.
  intros Hwf. unfold torch_mean_dim0, sum_dim0. rewrite length_map.
  apply foldl_vadd_length; [apply length_replicate|exact Hwf].
Qed.

Lemma torch_mean_dim0_lookup (m : Tensor2) (k : nat) :
  wf2 m -> (k < t2_cols m)%nat ->
  torch_mean_dim0 m !! k
  = Some (div_count (t2_rows m) (foldl Qplus 0%Q (col k (t2_data m)))).
Proof.
  intros Hwf Hk. unfold torch_mean_dim0. rewrite list_lookup_fmap.
  assert (Hlen : length (sum_dim0 m) = t2_cols m).
  { apply foldl_vadd_length; [apply length_replicate|exact Hwf]. }
  destruct (sum_dim0 m !! k) as [s|] eqn:Hs.
  - simpl. f_equal. f_equal.
    apply (nth_lookup_Some _ _ 0%Q) in Hs. rewrite <- Hs.
    unfold sum_dim0.
    rewrite (foldl_vadd_nth (t2_cols m)); auto using length_replicate.
    now rewrite nth_replicate_zero.
  - apply lookup_ge_None in Hs. lia.
Qed.

(** ** Max pooling *)

Lemma max_scan_length (D : nat) (rows : list (list Q)) :
  forall (t : nat) (acc : list (Q * nat)),
  length acc = D -> Forall (fun r => length r = D) rows ->
  length (max_scan t acc rows) = D.
Proof.
  induction rows as [|r rows IH]; intros t acc Ha Hr; simpl; [exact Ha|].
  inversion Hr; subst. apply IH; [|assumption].
  rewrite length_zip_with. lia.
Qed.

Lemma max_scan_lookup (D : nat) (rows : list (list Q)) :
  forall (t : nat) (acc : list (Q * nat)) (k : nat) (cur : Q * nat),
  length acc = D -> Forall (fun r => length r = D) rows ->
  acc !! k = Some cur ->
  max_scan t acc rows !! k = Some (col_scan t cur (col k rows)).
Proof.
  induction rows as [|r rows IH]; intros t acc k cur Ha Hr Hk; simpl; [exact Hk|].
  inversion Hr as [|? ? Hlen Hrest]; subst.
  apply IH; [rewrite length_zip_with; lia|assumption|].
  rewrite lookup_zip_with, Hk. simpl.
  assert (Hlt : (k < length r)%nat).
  { rewrite Hlen. apply lookup_lt_Some in Hk. exact Hk. }
  destruct (lookup_lt_is_Some_2 r k Hlt) as [x Hx].
  rewrite Hx. simpl. now rewrite (nth_lookup_Some _ _ 0%Q _ Hx).
Qed.

Lemma col_scan_spec (xs : list Q) :
  forall (seen : list Q) (cur : Q * nat),
  seen !! snd cur = Some (fst cur) ->
  (forall x, x ∈ seen -> x <= fst cur) ->
  (seen ++ xs)%list !! snd (col_scan (length seen) cur xs)
    = Some (fst (col_scan (length seen) cur xs))
  /\ forall x, x ∈ (seen ++ xs)%list ->
       x <= fst (col_scan (length seen) cur xs).
Proof.
  induction xs as [|x xs IH]; intros seen cur Hat Hub; simpl.
  - rewrite app_nil_r. split; assumption.
  - replace (seen ++ x :: xs)%list with ((seen ++ [x]) ++ xs)%list
      by (rewrite <- app_assoc; reflexivity).
    replace (S (length seen)) with (length (seen ++ [x])%list)
      by (rewrite length_app; simpl; lia).
    apply IH; unfold max_upd; destruct (Qle_bool x (fst cur)) eqn:Hle; simpl.
    + apply lookup_app_l_Some. exact Hat.
    + rewrite lookup_app_r by lia. now rewrite Nat.sub_diag.
    + intros y Hy. apply elem_of_app in Hy as [Hy|Hy]; [auto|].
      apply list_elem_of_singleton in Hy. subst y. now apply Qle_bool_iff.
    + assert (Hlt : fst cur < x).
      { apply Qnot_le_lt. intros Hc. apply Qle_bool_iff in Hc. congruence. }
      intros y Hy. apply elem_of_app in Hy as [Hy|Hy].
      * apply Qle_trans with (fst cur); [auto|now apply Qlt_le_weak].
      * apply list_elem_of_singleton in Hy. subst y. apply Qle_refl.
Qed.

Lemma torch_max_dim0_ok (m : Tensor2) :
  wf2 m -> t2_data m <> [] ->
  exists vals idxs,
    torch_max_dim0 m = Ok (vals, idxs)
    /\ length vals = t2_cols m /\ length idxs = t2_cols m.
Proof.
  intros Hwf Hne. unfold torch_max_dim0, wf2 in *.
  destruct (t2_data m) as [|r0 rs]; [congruence|].
  inversion Hwf as [|? ? Hlen Hrest]; subst.
  eexists _, _. split; [reflexivity|].
  rewrite !length_map.
  split; apply max_scan_length; try assumption; now rewrite length_map.
Qed.

Lemma torch_max_dim0_lookup (m : Tensor2) (vals : list Q) (idxs : list nat) (k : nat) :
  wf2 m -> torch_max_dim0 m = Ok (vals, idxs) -> (k < t2_cols m)%nat ->
  exists v i,
    vals !! k = Some v /\ idxs !! k = Some i
    /\ column k m !! i = Some v
    /\ forall x, x ∈ column k m -> x <= v.
Proof.
  intros Hwf Hmax Hk. unfold torch_max_dim0, wf2, column in *.
  destruct (t2_data m) as [|r0 rs]; [discriminate|].
  inversion Hwf as [|? ? Hlen Hrest]; subst.
  injection Hmax as <- <-.
  assert (Hacc : map (fun x => (x, O)) r0 !! k = Some (nth k r0 0%Q, O)).
  { rewrite list_lookup_fmap.
    destruct (lookup_lt_is_Some_2 r0 k) as [x Hx]; [lia|].
    rewrite Hx. simpl. now rewrite (nth_lookup_Some _ _ 0%Q _ Hx). }
  assert (Hl0 : length (map (fun x : Q => (x, O)) r0) = t2_cols m)
    by now rewrite length_map.
  pose proof (max_scan_lookup (t2_cols m) rs 1 _ k _ Hl0 Hrest Hacc) as Hscan.
  destruct (col_scan_spec (col k rs) [nth k r0 0%Q] (nth k r0 0%Q, O)) as [Hat Hub].
  { reflexivity. }
  { intros x Hx. apply list_elem_of_singleton in Hx. subst x. apply Qle_refl. }
  simpl in Hat, Hub.
  exists (fst (col_scan 1 (nth k r0 0%Q, O) (col k rs))),
         (snd (col_scan 1 (nth k r0 0%Q, O) (col k rs))).
  split; [now rewrite list_lookup_fmap, Hscan|].
  split; [now rewrite list_lookup_fmap, Hscan|].
  split; [exact Hat|exact Hub].
Qed.

Lemma embedding_mean_unfold (hs : Tensor3) (m : Tensor2) :
  tensor_index0 hs = Ok m -> embedding_mean hs = Ok (torch_mean_dim0 m).
Proof. intros H. unfold embedding_mean. now rewrite H. Qed.

Lemma embedding_max_unfold (hs : Tensor3) (m : Tensor2) (vals : list Q) (idxs : list nat) :
  tensor_index0 hs = Ok m -> torch_max_dim0 m = Ok (vals, idxs) ->
  embedding_max hs = Ok vals.
Proof. intros H1 H2. unfold embedding_max. now rewrite H1, H2. Qed.

Lemma mean_of_column (m : Tensor2) (k : nat) :
  wf2 m -> (1 <= t2_rows m)%nat -> (k < t2_cols m)%nat ->
  torch_mean_dim0 m !! k = Some (Fin (arith_mean (column k m))).
Proof.
  intros Hwf Hrows Hk. rewrite torch_mean_dim0_lookup by assumption.
  unfold arith_mean, column, col. rewrite length_map. fold (t2_rows m).
  destruct (t2_rows m); [lia|reflexivity].
Qed.

Lemma max_of_column (m : Tensor2) (vals : list Q) (idxs : list nat) (k : nat) :
  wf2 m -> torch_max_dim0 m = Ok (vals, idxs) -> (k < t2_cols m)%nat ->
  exists v, vals !! k = Some v /\ is_maximum v (column k m).
Proof.
  intros Hwf Hmax Hk.
  destruct (torch_max_dim0_lookup m vals idxs k Hwf Hmax Hk)
    as (v & i & Hv & _ & Hat & Hub).
  exists v. split; [exact Hv|]. split; [|exact Hub].
  eapply list_elem_of_lookup_2. exact Hat.
Qed.

Example demo_mean : embedding_mean demo_hidden = Ok [Fin (9 # 3); Fin (3 # 3)].
Proof. reflexivity. Qed.

Example demo_max : embedding_max demo_hidden = Ok [5; 4].
Proof. reflexivity. Qed.

Example demo_max_indices :
  torch_max_dim0 demo_matrix = Ok ([5; 4], [2; 0]%nat).
Proof. reflexivity. Qed.

(** ** Mean pooling in float32 *)

Lemma f32_length_vadd (a b : list f32) :
  length a = length b -> length (f32_vadd a b) = length a.
Proof.
  intros H. unfold f32_vadd. rewrite length_zip_with. lia.
Qed.

Lemma f32_nth_vadd (a b : list f32) (k : nat) :
  length a = length b -> (k < length a)%nat ->
  nth k (f32_vadd a b) f32_zero
  = f32_add (nth k a f32_zero) (nth k b f32_zero).
Proof.
  unfold f32_vadd. revert b k.
  induction a as [|x a IH]; intros [|y b] k Hl Hk;
    cbn [length zip_with nth] in *; try lia.
  destruct k as [|k]; [reflexivity|]. apply IH; lia.
Qed.

Lemma f32_foldl_vadd_length (D : nat) (rows : list (list f32)) (acc : list f32) :
  length acc = D -> Forall (fun r => length r = D) rows ->
  length (foldl f32_vadd acc rows) = D.
Proof.
  revert acc. induction rows as [|r rows IH]; intros acc Ha Hr;
    cbn [foldl]; [exact Ha|].
  inversion Hr; subst. apply IH; [|assumption].
  rewrite f32_length_vadd; congruence.
Qed.

Lemma f32_foldl_vadd_nth (D : nat) (rows : list (list f32)) (acc : list f32) (k : nat) :
  length acc = D -> Forall (fun r => length r = D) rows -> (k < D)%nat ->
  nth k (foldl f32_vadd acc rows) f32_zero
  = foldl f32_add (nth k acc f32_zero) (f32_col k rows).
Proof.
  unfold f32_col.
  revert acc. induction rows as [|r rows IH]; intros acc Ha Hr Hk;
    cbn [foldl map]; [reflexivity|].
  inversion Hr; subst.
  rewrite IH; [|rewrite f32_length_vadd; congruence|assumption|assumption].
  rewrite f32_nth_vadd; [reflexivity|congruence|lia].
Qed.

Lemma f32_nth_replicate_zero (D k : nat) :
  nth k (replicate D f32_zero) f32_zero = f32_zero.
Proof.
  revert k. induction D as [|D IH]; intros [|k]; cbn [replicate nth]; auto.
Qed.

Lemma torch_mean_dim0_f32_lookup (m : FTensor2) (k : nat) :
  f32_wf2 m -> (k < f2_cols m)%nat ->
  torch_mean_dim0_f32 m !! k = Some (f32_mean (f32_col k (f2_data m))).
Proof.
  intros Hwf Hk. unfold torch_mean_dim0_f32, f32_mean.
  rewrite list_lookup_fmap.
  assert (Hlen : length (f32_sum_dim0 m) = f2_cols m).
  { apply f32_foldl_vadd_length; [apply length_replicate|exact Hwf]. }
  destruct (f32_sum_dim0 m !! k) as [s|] eqn:Hs.
  - cbn [fmap option_fmap option_map]. f_equal.
    unfold f32_col at 2. rewrite length_map. f_equal.
    apply (nth_lookup_Some _ _ f32_zero) in Hs. rewrite <- Hs.
    unfold f32_sum_dim0.
    rewrite (f32_foldl_vadd_nth (f2_cols m)); auto using length_replicate.
    now rewrite f32_nth_replicate_zero.
  - apply lookup_ge_None in Hs. lia.
Qed.

Lemma embedding_mean_f32_unfold (hs : FTensor3) (m : FTensor2) :
  f32_tensor_index0 hs = Ok m -> embedding_mean_f32 hs = Ok (torch_mean_dim0_f32 m).
Proof. intros H. unfold embedding_mean_f32. now rewrite H. Qed.

(** The float32 mean reproduces the loss of a small term next to a large
    one, and the NaN of an empty reduction. *)
Example f32_mean_absorbs :
  f32_mean [f32_of_Z 100000000; f32_of_Z 1; f32_of_Z (-100000000)] = f32_zero.
Proof. vm_compute. reflexivity. Qed.

Example f32_mean_empty : f32_mean [] = S754_nan.
Proof. vm_compute. reflexivity. Qed.




(** C2: for a hidden-state matrix with at least one row, component [k] of the
    max-pooled embedding is the maximum of column [k]; the embedding is the
    value component of the reduction's result, the indices of the rows that
    attain the maxima are not part of it. *)
Theorem embedding_max_is_column_max (hs : Tensor3) (m : Tensor2) :
  tensor_index0 hs = Ok m -> wf2 m -> (1 <= t2_rows m)%nat ->
  exists vals idxs,
    torch_max_dim0 m = Ok (vals, idxs)
    /\ embedding_max hs = Ok vals
    /\ forall k, (k < t2_cols m)%nat ->
         exists v, vals !! k = Some v /\ is_maximum v (column k m).
Proof.
  intros Hidx Hwf Hrows.
  destruct (torch_max_dim0_ok m Hwf) as (vals & idxs & Hmax & _ & _).
  { unfold t2_rows in Hrows. destruct (t2_data m); simpl in *; [lia|discriminate]. }
  exists vals, idxs. split; [exact Hmax|].
  split; [now apply (embedding_max_unfold hs m vals idxs)|].
  intros k Hk. now apply (max_of_column m vals idxs).
Qed.

Lemma embedding_max_is_column_max_witness :
  exists vals idxs,
    torch_max_dim0 demo_matrix = Ok (vals, idxs)
    /\ embedding_max demo_hidden = Ok vals
    /\ forall k, (k < 2)%nat ->
         exists v, vals !! k = Some v /\ is_maximum v (column k demo_matrix).
Proof.
  apply (embedding_max_is_column_max demo_hidden demo_matrix).
  - reflexivity.
  - repeat constructor.
  - vm_compute. lia.
Defined.

(** C10: for a non-empty hidden-state matrix with rows of dimensionality [D],
    the mean embedding and the max embedding both have length [D], whatever
    the number of rows. *)
Theorem embeddings_have_model_dimension (hs : Tensor3) (m : Tensor2) :
  tensor_index0 hs = Ok m -> wf2 m -> (1 <= t2_rows m)%nat ->
  exists e_mean e_max,
    embedding_mean hs = Ok e_mean /\ embedding_max hs = Ok e_max
    /\ length e_mean = t2_cols m /\ length e_max = t2_cols m.
Proof.
  intros Hidx Hwf Hrows.
  destruct (torch_max_dim0_ok m Hwf) as (vals & idxs & Hmax & Hlv & _).
  { unfold t2_rows in Hrows. destruct (t2_data m); simpl in *; [lia|discriminate]. }
  exists (torch_mean_dim0 m), vals.
  split; [now apply embedding_mean_unfold|].
  split; [now apply (embedding_max_unfold hs m vals idxs)|].
  split; [now apply length_torch_mean_dim0|exact Hlv].
Qed.

Lemma embeddings_have_model_dimension_witness :
  exists e_mean e_max,
    embedding_mean demo_hidden = Ok e_mean /\ embedding_max demo_hidden = Ok e_max
    /\ length e_mean = 2%nat /\ length e_max = 2%nat.
Proof.
  apply (embeddings_have_model_dimension demo_hidden demo_matrix).
  - reflexivity.
  - repeat constructor.
  - vm_compute. lia.
Defined.

(** ** Batch element 0 *)

(** C9: both embeddings are computed from batch element 0 only: replacing
    any other batch element leaves them unchanged. *)
Theorem embeddings_depend_on_batch0_only (hs : Tensor3) (i : nat) (s : list (list Q)) :
  i <> O ->
  embedding_mean (mkTensor3 (t3_cols hs) (<[i := s]> (t3_data hs)))
    = embedding_mean hs
  /\ embedding_max (mkTensor3 (t3_cols hs) (<[i := s]> (t3_data hs)))
    = embedding_max hs.
Proof.
  intros Hi. unfold embedding_mean, embedding_max, tensor_index0. simpl.
  destruct (t3_data hs) as [|s0 rest]; [split; reflexivity|].
  destruct i as [|i]; [congruence|]. split; reflexivity.
Qed.

Lemma embeddings_depend_on_batch0_only_witness :
  embedding_mean (mkTensor3 2 (<[1%nat := [[0; 0]; [9; 9]]%Q]> (t3_data demo_hidden)))
    = embedding_mean demo_hidden
  /\ embedding_max (mkTensor3 2 (<[1%nat := [[0; 0]; [9; 9]]%Q]> (t3_data demo_hidden)))
    = embedding_max demo_hidden.
Proof.
  apply (embeddings_depend_on_batch0_only demo_hidden 1 [[0; 0]; [9; 9]]%Q).
  lia.
Defined.

(** ** Zero rows *)

Lemma torch_mean_dim0_zero_rows (D : nat) :
  torch_mean_dim0 (mkTensor2 D []) = replicate D NaN.
Proof.
  unfold torch_mean_dim0, sum_dim0, t2_rows. simpl.
  induction D as [|D IH]; simpl; [reflexivity|now rewrite IH].
Qed.

(** C3, as stated, fails: on a matrix without rows mean pooling does not
    fail at all, it returns an embedding of NaN entries; max pooling raises
    the reduction's own exception. *)
Lemma zero_rows_mean_returns_embedding :
  token_count zero_rows = O
  /\ embedding_mean zero_rows = Ok [NaN; NaN]
  /\ embedding_max zero_rows = Raise max_empty_msg.
Proof. repeat split. Qed.

(** C3, amended: when batch element 0 of the hidden states has zero rows,
    mean pooling returns a vector of [D] NaN entries and max pooling raises
    the empty-reduction exception of the tensor library; neither is preceded
    by a check on the row count. *)
Theorem zero_rows_pooling (hs : Tensor3) (rest : list (list (list Q))) :
  t3_data hs = [] :: rest ->
  embedding_mean hs = Ok (replicate (t3_cols hs) NaN)
  /\ embedding_max hs = Raise max_empty_msg.
Proof.
  intros H. unfold embedding_mean, embedding_max, tensor_index0. rewrite H.
  split; [|reflexivity]. now rewrite torch_mean_dim0_zero_rows.
Qed.

Lemma zero_rows_pooling_witness :
  embedding_mean zero_rows = Ok (replicate 2 NaN)
  /\ embedding_max zero_rows = Raise max_empty_msg.
Proof.
  apply (zero_rows_pooling zero_rows []). reflexivity.
Defined.

(** ** Every row takes part in the reductions *)

Lemma exact_rows_shape (D : nat) (rows_f : list (list f32)) (rows : list (list Q)) :
  exact_rows rows_f = Some rows ->
  Forall (fun r => length r = D) rows_f ->
  length rows = length rows_f /\ Forall (fun r => length r = D) rows.
Proof.
  unfold exact_rows. intros H Hwf. apply mapM_Some in H.
  induction H as [|rf r rows_f rows Hr _ IH]; [split; constructor|].
  inversion Hwf as [|? ? Hlen Hrest]; subst.
  destruct (IH Hrest) as [IHl IHw]. split; [simpl; now rewrite IHl|].
  constructor; [|exact IHw].
  apply length_mapM in Hr. congruence.
Qed.

Lemma exact_view_batch0 (hs_f : FTensor3) (hs : Tensor3)
    (rows_f : list (list f32)) (rest_f : list (list (list f32))) :
  f3_data hs_f = rows_f :: rest_f -> exact_view hs_f = Some hs ->
  exists rows rest,
    t3_data hs = rows :: rest /\ t3_cols hs = f3_cols hs_f
    /\ exact_rows rows_f = Some rows.
Proof.
  unfold exact_view. intros Hdata H. rewrite Hdata in H.
  destruct (mapM exact_rows (rows_f :: rest_f)) as [slices|] eqn:Hm;
    [|discriminate].
  injection H as <-. apply mapM_Some in Hm.
  inversion Hm as [|? rows ? rest Hrows _]; subst.
  exists rows, rest. auto.
Qed.

Lemma row_entry_le_max (m : Tensor2) (vals : list Q) (idxs : list nat) (k : nat) :
  wf2 m -> torch_max_dim0 m = Ok (vals, idxs) -> (k < t2_cols m)%nat ->
  exists v,
    vals !! k = Some v
    /\ forall t r, t2_data m !! t = Some r ->
         exists x, r !! k = Some x /\ x <= v.
Proof.
  intros Hwf Hmax Hk.
  destruct (max_of_column m vals idxs k Hwf Hmax Hk) as (v & Hv & _ & Hub).
  exists v. split; [exact Hv|]. intros t r Hr.
  assert (Hlen : length r = t2_cols m).
  { unfold wf2 in Hwf. rewrite Forall_forall in Hwf. apply Hwf.
    eapply list_elem_of_lookup_2. exact Hr. }
  destruct (lookup_lt_is_Some_2 r k) as [x Hx]; [lia|].
  exists x. split; [exact Hx|]. apply Hub.
  unfold column. apply (list_elem_of_lookup_2 _ t).
  rewrite list_lookup_fmap, Hr. simpl.
  now rewrite (nth_lookup_Some _ _ 0%Q _ Hx).
Qed.



(** The float32 mean of the sample hidden states, and its values. *)
Example f32_demo_mean :
  embedding_mean_f32 f32_demo_hidden = Ok [f32_of_Z 3; f32_of_Z 1].
Proof. vm_compute. reflexivity. Qed.

(** ** The [except] clause *)

Lemma error_reports_handler (e : string) :
  error_reports (Line ("Error: " ++ e) :: hints) = [Line ("Error: " ++ e)].
Proof. destruct e; reflexivity. Qed.



(** ** The service wrapper *)

Lemma first_invalid_spec (l : list ascii) :
  forall i0,
  forallb is_nucleotide l = false ->
  exists c i,
    first_invalid i0 l = Some (c, (i0 + i)%nat)
    /\ l !! i = Some c
    /\ is_nucleotide c = false
    /\ forall j c', (j < i)%nat -> l !! j = Some c' -> is_nucleotide c' = true.
Proof.
  induction l as [|a l IH]; intros i0 H; simpl in *; [discriminate|].
  destruct (is_nucleotide a) eqn:Ha; simpl in H.
  - destruct (IH (S i0) H) as (c & i & Hf & Hl & Hc & Hpre).
    exists c, (S i). split; [rewrite Hf; f_equal; f_equal; lia|].
    split; [exact Hl|]. split; [exact Hc|].
    intros [|j] c' Hj Hc'; simpl in Hc'.
    + congruence.
    + apply (Hpre j); [lia|exact Hc'].
  - exists a, O. split; [f_equal; f_equal; lia|].
    split; [reflexivity|]. split; [exact Ha|]. intros j c' Hj. lia.
Qed.

Section ServiceProperties.

Variables BState Encoding : Type.
Variable MAX_LEN : nat.
Variable run_tokenizer : string -> BState -> outcome Encoding * BState.
Variable run_model : Encoding -> BState -> outcome (list Tensor3) * BState.

Local Abbreviation service := (predict MAX_LEN run_tokenizer run_model).

Lemma validate_too_short (raw : string) :
  (1 <= length (normalize raw))%nat -> (length (normalize raw) < MIN_LEN)%nat ->
  validate MAX_LEN raw = inl TooShort.
Proof.
  intros H1 H2. unfold validate.
  destruct (Nat.eqb_spec (length (normalize raw)) 0); [lia|].
  destruct (Nat.ltb_spec (length (normalize raw)) MIN_LEN); [reflexivity|lia].
Qed.

Lemma validate_long_enough (raw : string) :
  (MIN_LEN <= length (normalize raw))%nat ->
  validate MAX_LEN raw =
  match first_invalid 0 (normalize raw) with
  | Some (c, i) => inl (InvalidCharacter c i)
  | None =>
      if (MAX_LEN <? length (normalize raw))%nat then inl TooLong
      else inr (string_of_list_ascii (normalize raw))
  end.
Proof.
  intros H1. unfold validate. unfold MIN_LEN in *.
  destruct (Nat.eqb_spec (length (normalize raw)) 0); [lia|].
  destruct (Nat.ltb_spec (length (normalize raw)) 6); [lia|reflexivity].
Qed.

Lemma predict_rejected (raw : string) (e : ErrorKind) (w : world BState Encoding) :
  validate MAX_LEN raw = inl e -> service raw w = (inl e, w).
Proof. intros H. unfold predict. now rewrite H. Qed.

(** A sequence that passes validation does reach the tokenizer, and the call
    is recorded. *)
Lemma predict_valid_calls_tokenizer (raw seq : string) (w : world BState Encoding) :
  validate MAX_LEN raw = inr seq ->
  exists l, calls (snd (service raw w)) = (calls w ++ TokenizerCall seq :: l)%list.
Proof.
  intros H. unfold predict, call_tokenizer, call_model. rewrite H.
  destruct (run_tokenizer seq (backend w)) as [[inputs|e] b1]; simpl.
  - destruct (run_model inputs b1) as [[outputs|e] b2]; simpl.
    + exists [ModelCall inputs].
      destruct (tuple_index0 outputs) as [hs|]; simpl;
        [destruct (embedding_mean hs), (embedding_max hs)|]; simpl;
        now rewrite <- app_assoc.
    + exists [ModelCall inputs]. now rewrite <- app_assoc.
  - now exists [].
Qed.

(** C4, amended: for every raw input whose trimmed, case-normalized form is
    not empty and shorter than 6 characters, [predict] returns [TooShort] and
    leaves the world as it found it: no tokenizer call and no model call is
    made or recorded. *)
Theorem predict_too_short (raw : string) (w : world BState Encoding) :
  (1 <= length (normalize raw))%nat -> (length (normalize raw) < 6)%nat ->
  service raw w = (inl TooShort, w)
  /\ calls (snd (service raw w)) = calls w.
Proof.
  intros H1 H2.
  assert (H : service raw w = (inl TooShort, w)).
  { apply predict_rejected. now apply validate_too_short. }
  split; [exact H|now rewrite H].
Qed.

(** C5, amended: for every raw input whose trimmed, case-normalized form has
    at least [MIN_LEN] characters and contains a character outside
    {A, C, G, T}, [predict] returns [InvalidCharacter] with the first such
    character and its index in the normalized sequence, and leaves the world
    as it found it. *)
Theorem predict_invalid_character (raw : string) (w : world BState Encoding) :
  (MIN_LEN <= length (normalize raw))%nat ->
  forallb is_nucleotide (normalize raw) = false ->
  exists c i,
    service raw w = (inl (InvalidCharacter c i), w)
    /\ normalize raw !! i = Some c
    /\ is_nucleotide c = false
    /\ forall j c', (j < i)%nat -> normalize raw !! j = Some c' ->
         is_nucleotide c' = true.
Proof.
  intros Hmin Hbad.
  destruct (first_invalid_spec (normalize raw) 0 Hbad) as (c & i & Hf & Hrest).
  exists c, i. split; [|exact Hrest].
  apply predict_rejected. rewrite validate_long_enough by assumption.
  now rewrite Hf.
Qed.

End ServiceProperties.

Lemma predict_too_short_witness :
  predict 512 demo_tokenizer demo_model "ACGT" demo_world
    = (inl TooShort, demo_world)
  /\ calls (snd (predict 512 demo_tokenizer demo_model "ACGT" demo_world))
     = calls demo_world.
Proof.
  apply (predict_too_short nat (list nat) 512 demo_tokenizer demo_model
           "ACGT" demo_world).
  - vm_compute. lia.
  - vm_compute. lia.
Defined.

(** C4, as stated, fails: the empty input (and any input of whitespace only)
    has a normalized length below 6 and is rejected as [Empty], not as
    [TooShort]. *)
Lemma empty_input_is_not_too_short :
  (length (normalize "") < 6)%nat
  /\ predict 512 demo_tokenizer demo_model "" demo_world
     = (inl Empty, demo_world)
  /\ (length (normalize "   ") < 6)%nat
  /\ predict 512 demo_tokenizer demo_model "   " demo_world
     = (inl Empty, demo_world).
Proof. repeat split; vm_compute; lia. Qed.

Lemma predict_invalid_character_witness :
  exists c i,
    predict 512 demo_tokenizer demo_model "TTTTAAAACCCGGGGGNNNN" demo_world
      = (inl (InvalidCharacter c i), demo_world)
    /\ normalize "TTTTAAAACCCGGGGGNNNN" !! i = Some c
    /\ is_nucleotide c = false
    /\ forall j c', (j < i)%nat ->
         normalize "TTTTAAAACCCGGGGGNNNN" !! j = Some c' ->
         is_nucleotide c' = true.
Proof.
  apply (predict_invalid_character nat (list nat) 512 demo_tokenizer demo_model
           "TTTTAAAACCCGGGGGNNNN" demo_world).
  - vm_compute. lia.
  - reflexivity.
Defined.

(** C5, as stated, fails: an input with a character outside the alphabet
    that is shorter than [MIN_LEN] is rejected as too short, the character
    is not reported. *)
Lemma short_invalid_input_is_too_short :
  forallb is_nucleotide (normalize "ACGN") = false
  /\ predict 512 demo_tokenizer demo_model "ACGN" demo_world
     = (inl TooShort, demo_world).
Proof. split; reflexivity. Qed.

(** *** The three sequences of the test client *)

Example scenario_valid :
  predict 512 demo_tokenizer demo_model "ACGTAGCATCGGATCTATCT" demo_world
  = (inr (mkResult "ACGTAGCATCGGATCTATCT" [Fin (9 # 3); Fin (3 # 3)] [5; 4]%Q 3),
     mkWorld [] [TokenizerCall "ACGTAGCATCGGATCTATCT"; ModelCall [20%nat]] 2%nat).
Proof. reflexivity. Qed.

Example scenario_invalid :
  fst (predict 512 demo_tokenizer demo_model "TTTTAAAACCCGGGGGNNNN" demo_world)
  = inl (InvalidCharacter "N" 16).
Proof. reflexivity. Qed.

Example scenario_too_short :
  fst (predict 512 demo_tokenizer demo_model "ACGT" demo_world) = inl TooShort.
Proof. reflexivity. Qed.

Example scenario_long_invalid :
  fst (predict 8 demo_tokenizer demo_model "ACGTNACGTA" demo_world)
  = inl (InvalidCharacter "N" 4).
Proof. reflexivity. Qed.

Example scenario_too_long :
  fst (predict 8 demo_tokenizer demo_model "ACGTAACGTA" demo_world)
  = inl TooLong.
Proof. reflexivity. Qed.

Example scenario_lower_case_padded :
  fst (predict 512 demo_tokenizer demo_model "  acgtnacgt " demo_world)
  = inl (InvalidCharacter "N" 4).
Proof. reflexivity. Qed.

(** * Further properties of the pooling *)

(** ** Order of the rows *)

Lemma col_perm (k : nat) (rows rows' : list (list Q)) :
  rows ≡ₚ rows' -> col k rows ≡ₚ col k rows'.
Proof. intros H. unfold col. now apply Permutation_map. Qed.

Lemma is_maximum_perm (v v' : Q) (l l' : list Q) :
  l ≡ₚ l' -> is_maximum v l -> is_maximum v' l' -> v == v'.
Proof.
  intros Hp [Hin Hub] [Hin' Hub'].
  apply Qle_antisym.
  - apply Hub'. now rewrite <- Hp.
  - apply Hub. now rewrite Hp.
Qed.

Lemma perm_rows_wf (D : nat) (rows rows' : list (list Q)) :
  rows ≡ₚ rows' -> rows <> [] -> Forall (fun r => length r = D) rows ->
  rows' <> [] /\ Forall (fun r => length r = D) rows'.
Proof.
  intros Hp Hne Hwf. split.
  - intros ->. apply Permutation_nil_r in Hp. congruence.
  - now rewrite <- Hp.
Qed.

(** X3: the max embedding does not depend on the order of the rows:
    its components are equal as rational numbers for any two orders. *)
Theorem max_embedding_row_order (D : nat) (rows rows' : list (list Q))
    (rest rest' : list (list (list Q))) :
  rows ≡ₚ rows' -> rows <> [] -> Forall (fun r => length r = D) rows ->
  exists u u',
    embedding_max (mkTensor3 D (rows :: rest)) = Ok u
    /\ embedding_max (mkTensor3 D (rows' :: rest')) = Ok u'
    /\ forall k, (k < D)%nat ->
         exists v v', u !! k = Some v /\ u' !! k = Some v' /\ v == v'.
Proof.
  intros Hp Hne Hwf.
  destruct (perm_rows_wf D rows rows' Hp Hne Hwf) as [Hne' Hwf'].
  destruct (torch_max_dim0_ok (mkTensor2 D rows) Hwf Hne)
    as (u & idxs & Hmax & _ & _).
  destruct (torch_max_dim0_ok (mkTensor2 D rows') Hwf' Hne')
    as (u' & idxs' & Hmax' & _ & _).
  exists u, u'.
  split; [now apply (embedding_max_unfold _ (mkTensor2 D rows) u idxs)|].
  split; [now apply (embedding_max_unfold _ (mkTensor2 D rows') u' idxs')|].
  intros k Hk.
  destruct (max_of_column (mkTensor2 D rows) u idxs k Hwf Hmax Hk) as (v & Hv & Hm).
  destruct (max_of_column (mkTensor2 D rows') u' idxs' k Hwf' Hmax' Hk)
    as (v' & Hv' & Hm').
  exists v, v'. split; [exact Hv|]. split; [exact Hv'|].
  apply (is_maximum_perm v v' (col k rows) (col k rows'));
    [now apply col_perm|exact Hm|exact Hm'].
Qed.

Lemma max_embedding_row_order_witness :
  exists u u',
    embedding_max (mkTensor3 2 ([ [1; 4]; [3; 2]; [5; -3] ]%Q :: [])) = Ok u
    /\ embedding_max (mkTensor3 2 ([ [3; 2]; [1; 4]; [5; -3] ]%Q :: [])) = Ok u'
    /\ forall k, (k < 2)%nat ->
         exists v v', u !! k = Some v /\ u' !! k = Some v' /\ v == v'.
Proof.
  apply (max_embedding_row_order 2
           [ [1; 4]; [3; 2]; [5; -3] ]%Q [ [3; 2]; [1; 4]; [5; -3] ]%Q [] []).
  - apply perm_swap.
  - discriminate.
  - repeat constructor.
Defined.

(** ** A single row *)

Lemma map_fst_pair_zero (r : list Q) :
  map fst (map (fun x : Q => (x, O)) r) = r.
Proof. induction r as [|x r IH]; simpl; [reflexivity|now rewrite IH]. Qed.

(** X4: when the model returns a single row, the max embedding is that row
    and every component of the mean embedding equals, as a rational number,
    the same component of that row. *)
Theorem single_row_embeddings (D : nat) (r : list Q) (rest : list (list (list Q))) :
  length r = D ->
  embedding_max (mkTensor3 D ([r] :: rest)) = Ok r
  /\ exists e,
       embedding_mean (mkTensor3 D ([r] :: rest)) = Ok e
       /\ length e = D
       /\ forall k x, r !! k = Some x ->
            exists a, e !! k = Some (Fin a) /\ a == x.
Proof.
  intros Hlen. split.
  - unfold embedding_max, tensor_index0, torch_max_dim0. simpl.
    now rewrite map_fst_pair_zero.
  - assert (Hwf : wf2 (mkTensor2 D [r])) by (repeat constructor; exact Hlen).
    exists (torch_mean_dim0 (mkTensor2 D [r])).
    split; [reflexivity|]. split; [now apply length_torch_mean_dim0|].
    intros k x Hx.
    assert (Hk : (k < D)%nat) by (rewrite <- Hlen; now apply lookup_lt_Some in Hx).
    exists (arith_mean (column k (mkTensor2 D [r]))). split.
    + apply mean_of_column; [exact Hwf|unfold t2_rows; simpl; lia|exact Hk].
    + unfold arith_mean, column. simpl.
      rewrite (nth_lookup_Some _ _ 0%Q _ Hx).
      change (inject_Z (Z.of_nat 1)) with 1%Q. field.
Qed.

Lemma single_row_embeddings_witness :
  embedding_max (mkTensor3 2 ([ [3; -2]%Q ] :: [])) = Ok [3; -2]%Q
  /\ exists e,
       embedding_mean (mkTensor3 2 ([ [3; -2]%Q ] :: [])) = Ok e
       /\ length e = 2%nat
       /\ forall k x, [3; -2]%Q !! k = Some x ->
            exists a, e !! k = Some (Fin a) /\ a == x.
Proof.
  apply (single_row_embeddings 2 [3; -2]%Q []). reflexivity.
Defined.

(** * Properties of the test client *)

Section ClientProperties.

Variables JSON Server : Type.
Variable dumps : JSON -> string.
Variable post : TestApi.Request -> Server -> TestApi.result (TestApi.Response JSON) * Server.

Local Abbreviation run_test := (TestApi.test_prediction dumps post).
Local Abbreviation run_all := (TestApi.for_each dumps post).
Local Abbreviation client := (TestApi.main dumps post).

(** X10: a call of [test_prediction] sends exactly one request, whatever the
    server does: a POST to [API_URL] with a JSON content type whose body is
    the object with the single key ["sequence"] bound to the argument. *)
Theorem test_prediction_one_request (sequence : string) (w : TestApi.world Server) :
  TestApi.requests (snd (run_test sequence w))
  = (TestApi.requests w ++
     [ TestApi.mkRequest "http://localhost:4000/predict"
         [("Content-Type", "application/json")]
         [("sequence", sequence)] ])%list
  /\ TestApi.server (snd (run_test sequence w))
     = snd (post (TestApi.request_for sequence) (TestApi.server w)).
Proof.
  unfold TestApi.test_prediction, TestApi.show_body, TestApi.try_except,
    TestApi.bind, TestApi.do_post, TestApi.response_json, TestApi.print.
  simpl.
  destruct (post (TestApi.request_for sequence) (TestApi.server w))
    as [[r|[msg|msg|msg]] sv]; simpl; [|split; reflexivity..].
  destruct (TestApi.json_body r); simpl; split; reflexivity.
Qed.

(** X11: when [requests.post] raises a [RequestException], the client
    catches it: after the two header lines it prints ["Error: "] followed by
    the text of the exception and the closing empty line, and returns
    normally. *)
Theorem test_prediction_request_error (sequence msg : string)
    (w : TestApi.world Server) (sv : Server) :
  post (TestApi.request_for sequence) (TestApi.server w)
    = (TestApi.Raised (TestApi.RequestException msg), sv) ->
  run_test sequence w =
  (TestApi.Done tt,
   TestApi.mkWorld
     (TestApi.stdout w ++
      [ nl ++ "Testing with sequence: " ++ sequence;
        TestApi.str_repeat "-" 50;
        "Error: " ++ msg;
        "" ])
     (TestApi.requests w ++ [TestApi.request_for sequence])
     sv).
Proof.
  intros H.
  unfold TestApi.test_prediction, TestApi.try_except, TestApi.bind,
    TestApi.do_post, TestApi.print.
  simpl. rewrite H. simpl. now rewrite <- !app_assoc.
Qed.

(** X12: when the server answers, the client prints the status code and
    then the body: the JSON dump under ["Response:"] when the body decodes,
    the raw text under ["Response (not JSON):"] when decoding fails; a
    decoding failure is never an error of the test. *)
Theorem test_prediction_response (sequence : string) (w : TestApi.world Server)
    (r : TestApi.Response JSON) (sv : Server) :
  post (TestApi.request_for sequence) (TestApi.server w) = (TestApi.Done r, sv) ->
  run_test sequence w =
  (TestApi.Done tt,
   TestApi.mkWorld
     (TestApi.stdout w ++
      [ nl ++ "Testing with sequence: " ++ sequence;
        TestApi.str_repeat "-" 50;
        "Status code: " ++ str_of_nat (TestApi.status_code r) ] ++
      match TestApi.json_body r with
      | inl data => [ "Response:"; dumps data ]
      | inr _ => [ "Response (not JSON):"; TestApi.text r ]
      end ++ [ "" ])
     (TestApi.requests w ++ [TestApi.request_for sequence])
     sv).
Proof.
  intros H.
  unfold TestApi.test_prediction, TestApi.show_body, TestApi.try_except,
    TestApi.bind, TestApi.do_post, TestApi.response_json, TestApi.print.
  simpl. rewrite H. simpl.
  destruct (TestApi.json_body r); simpl; now rewrite <- !app_assoc.
Qed.

Lemma test_prediction_caught (sequence : string) (w : TestApi.world Server) :
  TestApi.caught_by_client
    (fst (post (TestApi.request_for sequence) (TestApi.server w))) = true ->
  fst (run_test sequence w) = TestApi.Done tt.
Proof.
  intros H.
  unfold TestApi.test_prediction, TestApi.show_body, TestApi.try_except,
    TestApi.bind, TestApi.do_post, TestApi.response_json, TestApi.print.
  simpl.
  destruct (post (TestApi.request_for sequence) (TestApi.server w))
    as [[r|[msg|msg|msg]] sv]; simpl in *; try discriminate; [|reflexivity].
  destruct (TestApi.json_body r); reflexivity.
Qed.

Lemma for_each_all_posted (sequences : list string) :
  (forall r sv, TestApi.caught_by_client (fst (post r sv)) = true) ->
  forall w : TestApi.world Server,
  fst (run_all sequences w) = TestApi.Done tt
  /\ TestApi.requests (snd (run_all sequences w))
     = (TestApi.requests w ++ map TestApi.request_for sequences)%list.
Proof.
  intros Hpost. induction sequences as [|s rest IH]; intros w.
  - simpl. split; [reflexivity|now rewrite app_nil_r].
  - cbn [TestApi.for_each]. unfold TestApi.bind.
    pose proof (test_prediction_caught s w (Hpost _ _)) as Hok.
    pose proof (test_prediction_one_request s w) as [Hreq _].
    destruct (run_test s w) as [[[]|e] w1]; simpl in Hok; [|discriminate].
    destruct (IH w1) as [IH1 IH2]. split; [exact IH1|].
    rewrite IH2. simpl in Hreq. rewrite Hreq.
    rewrite <- app_assoc. reflexivity.
Qed.

(** X13: when [requests.post] fails only with [RequestException]s, the
    client tests every sequence of its list, in order and once each, and
    terminates normally: a refused connection or an error response for one
    sequence does not keep the following ones from being sent. *)
Theorem main_posts_every_sequence (w : TestApi.world Server) :
  (forall r sv, TestApi.caught_by_client (fst (post r sv)) = true) ->
  fst (client w) = TestApi.Done tt
  /\ TestApi.requests (snd (client w))
     = (TestApi.requests w ++ map TestApi.request_for TestApi.TEST_SEQUENCES)%list.
Proof.
  intros Hpost. unfold TestApi.main, TestApi.bind, TestApi.print.
  cbn [fst snd].
  match goal with
  | |- context [run_all _ ?w1] =>
      destruct (for_each_all_posted TestApi.TEST_SEQUENCES Hpost w1) as [H1 H2]
  end.
  split; [exact H1|exact H2].
Qed.

(** X14: an exception of [requests.post] that is no [RequestException] is
    not caught: the loop stops at that sequence, the closing empty line of
    the test is not printed and the remaining sequences are not sent. *)
Theorem for_each_stops_on_other_exception (sequence : string) (rest : list string)
    (w : TestApi.world Server) (e : TestApi.exn) (sv : Server) :
  (forall msg, e <> TestApi.RequestException msg) ->
  post (TestApi.request_for sequence) (TestApi.server w) = (TestApi.Raised e, sv) ->
  run_all (sequence :: rest) w =
  (TestApi.Raised e,
   TestApi.mkWorld
     (TestApi.stdout w ++
      [ nl ++ "Testing with sequence: " ++ sequence;
        TestApi.str_repeat "-" 50 ])
     (TestApi.requests w ++ [TestApi.request_for sequence])
     sv).
Proof.
  intros Hne H. cbn [TestApi.for_each].
  unfold TestApi.test_prediction, TestApi.try_except, TestApi.bind,
    TestApi.do_post, TestApi.print.
  simpl. rewrite H. simpl.
  destruct e as [msg|msg|msg]; [now destruct (Hne msg)| |];
    simpl; now rewrite <- !app_assoc.
Qed.

End ClientProperties.

Lemma test_prediction_request_error_witness :
  TestApi.test_prediction TestApi.demo_dumps TestApi.demo_post "ACGT"
    TestApi.demo_world =
  (TestApi.Done tt,
   TestApi.mkWorld
     (TestApi.stdout TestApi.demo_world ++
      [ nl ++ "Testing with sequence: " ++ "ACGT";
        TestApi.str_repeat "-" 50;
        "Error: " ++ "Connection refused";
        "" ])
     (TestApi.requests TestApi.demo_world ++ [TestApi.request_for "ACGT"])
     1%nat).
Proof.
  apply (test_prediction_request_error string nat
           TestApi.demo_dumps TestApi.demo_post
           "ACGT" "Connection refused" TestApi.demo_world 1%nat).
  reflexivity.
Defined.

Lemma test_prediction_response_witness :
  TestApi.test_prediction TestApi.demo_dumps TestApi.demo_post
    "TTTTAAAACCCGGGGGNNNN" TestApi.demo_world =
  (TestApi.Done tt,
   TestApi.mkWorld
     (TestApi.stdout TestApi.demo_world ++
      [ nl ++ "Testing with sequence: " ++ "TTTTAAAACCCGGGGGNNNN";
        TestApi.str_repeat "-" 50;
        "Status code: "
          ++ str_of_nat (TestApi.status_code
                           (TestApi.mkResponse 400 "Bad Request"
                              (inr "Expecting value" : string + string))) ] ++
      match TestApi.json_body
              (TestApi.mkResponse 400 "Bad Request"
                 (inr "Expecting value" : string + string)) with
      | inl data => [ "Response:"; TestApi.demo_dumps data ]
      | inr _ =>
          [ "Response (not JSON):";
            TestApi.text (TestApi.mkResponse 400 "Bad Request"
                            (inr "Expecting value" : string + string)) ]
      end ++ [ "" ])
     (TestApi.requests TestApi.demo_world
      ++ [TestApi.request_for "TTTTAAAACCCGGGGGNNNN"])
     1%nat).
Proof.
  apply (test_prediction_response string nat
           TestApi.demo_dumps TestApi.demo_post
           "TTTTAAAACCCGGGGGNNNN" TestApi.demo_world
           (TestApi.mkResponse 400 "Bad Request" (inr "Expecting value"))
           1%nat).
  reflexivity.
Defined.

Lemma main_posts_every_sequence_witness :
  fst (TestApi.main TestApi.demo_dumps TestApi.refusing_post TestApi.demo_world)
    = TestApi.Done tt
  /\ TestApi.requests
       (snd (TestApi.main TestApi.demo_dumps TestApi.refusing_post
               TestApi.demo_world))
     = (TestApi.requests TestApi.demo_world
        ++ map TestApi.request_for TestApi.TEST_SEQUENCES)%list.
Proof.
  apply (main_posts_every_sequence string nat
           TestApi.demo_dumps TestApi.refusing_post TestApi.demo_world).
  intros r sv. reflexivity.
Defined.

Lemma for_each_stops_on_other_exception_witness :
  TestApi.for_each TestApi.demo_dumps TestApi.crashing_post
    ("ACGTAGCATCGGATCTATCT" :: ["TTTTAAAACCCGGGGGNNNN"; "ACGT"])
    TestApi.demo_world =
  (TestApi.Raised (TestApi.OtherException "interrupted"),
   TestApi.mkWorld
     (TestApi.stdout TestApi.demo_world ++
      [ nl ++ "Testing with sequence: " ++ "ACGTAGCATCGGATCTATCT";
        TestApi.str_repeat "-" 50 ])
     (TestApi.requests TestApi.demo_world
      ++ [TestApi.request_for "ACGTAGCATCGGATCTATCT"])
     1%nat).
Proof.
  apply (for_each_stops_on_other_exception string nat
           TestApi.demo_dumps TestApi.crashing_post
           "ACGTAGCATCGGATCTATCT" ["TTTTAAAACCCGGGGGNNNN"; "ACGT"]
           TestApi.demo_world (TestApi.OtherException "interrupted") 1%nat).
  - intros msg. discriminate.
  - reflexivity.
Defined.

(** The run of the client against the sample server: one JSON answer, one
    plain-text answer, one refused connection. *)
Example client_demo_run :
  TestApi.stdout
    (snd (TestApi.main TestApi.demo_dumps TestApi.demo_post TestApi.demo_world))
  = [ "Testing DNA Prediction API at: http://localhost:4000/predict";
      "==================================================";
      nl ++ "Testing with sequence: ACGTAGCATCGGATCTATCT";
      "--------------------------------------------------";
      "Status code: 200"; "Response:"; "{}"; "";
      nl ++ "Testing with sequence: TTTTAAAACCCGGGGGNNNN";
      "--------------------------------------------------";
      "Status code: 400"; "Response (not JSON):"; "Bad Request"; "";
      nl ++ "Testing with sequence: ACGT";
      "--------------------------------------------------";
      "Error: Connection refused"; "" ].
Proof. reflexivity. Qed.
